(** * The mysql2-compatible query executor of [db/connection.js]

    A shallow embedding of [convertQuestionMarksToDollars], [execute]
    and the options of the pool, and the properties of the placeholder
    translation, of the result normalisation and of error propagation.

    Strings are sequences of 8-bit characters, non-ASCII text being
    its UTF-8 bytes.  In UTF-8 every byte of a non-ASCII character is
    above 127, so a scan for ['?'] over bytes finds what the scan over
    UTF-16 code units finds.  Upper-casing is modelled on ASCII text
    only: the properties that depend on how a command tag is
    upper-cased are stated for ASCII tags. *)

From Stdlib Require Import String Ascii List Bool Arith ZArith Lia.
From Stdlib Require Import DecimalString.
Import ListNotations.

Local Open Scope list_scope.
Local Open Scope string_scope.

(* ================================================================== *)
(** * JavaScript values and the primitive operations the module uses  *)
(* ================================================================== *)

(** The values that flow through the module: statement parameters, the
    fields of the driver's result object, the normalised result and the
    values a rejected promise carries.  [JNum] holds the integer-valued
    numbers (row counts, scalar parameters); objects are association
    lists of own properties in insertion order. *)
#[warnings="-register-all"]
Inductive JsVal : Type :=
| JUndefined
| JNull
| JBool (b : bool)
| JNum (n : Z)
| JStr (s : string)
| JArr (items : list JsVal)
| JObj (props : list (string * JsVal)).

(** What an [async] function can throw here: the value the driver's
    promise rejected with, carried as it is, or the [TypeError] of a
    call of a method the receiver does not have. *)
Inductive Thrown : Type :=
| DriverError (e : JsVal)
| TypeError (msg : string).

(** ToBoolean. *)
Definition truthy (v : JsVal) : bool :=
  match v with
  | JUndefined | JNull => false
  | JBool b => b
  | JNum n => negb (n =? 0)%Z
  | JStr s => negb (s =? "")
  | JArr _ | JObj _ => true
  end.

(** [a || b]. *)
Definition js_or (a b : JsVal) : JsVal := if truthy a then a else b.

(** [a ?? b]. *)
Definition js_nullish (a b : JsVal) : JsVal :=
  match a with
  | JUndefined | JNull => b
  | _ => a
  end.

(** [Array.isArray(v)]. *)
Definition Array_isArray (v : JsVal) : bool :=
  match v with
  | JArr _ => true
  | _ => false
  end.

Fixpoint own_property (name : string) (props : list (string * JsVal)) : JsVal :=
  match props with
  | [] => JUndefined
  | (k, v) :: rest => if k =? name then v else own_property name rest
  end.

(** [v.length] for a [v] that is neither [undefined] nor [null] (the
    code reads it only behind [!values ||]).  The length of a string is
    only ever compared with [0] below. *)
Definition js_length (v : JsVal) : JsVal :=
  match v with
  | JArr items => JNum (Z.of_nat (List.length items))
  | JStr s => JNum (Z.of_nat (String.length s))
  | JObj props => own_property "length" props
  | _ => JUndefined
  end.

(** [v === 0]. *)
Definition strict_eq_zero (v : JsVal) : bool :=
  match v with
  | JNum n => (n =? 0)%Z
  | _ => false
  end.

(** [String(n)] for a non-negative integer counter. *)
Definition Number_toString (n : nat) : string :=
  NilEmpty.string_of_uint (Nat.to_uint n).

Definition is_lower_letter (c : ascii) : bool :=
  ((97 <=? nat_of_ascii c) && (nat_of_ascii c <=? 122))%nat.

Definition is_upper_letter (c : ascii) : bool :=
  ((65 <=? nat_of_ascii c) && (nat_of_ascii c <=? 90))%nat.

Definition upper_char (c : ascii) : ascii :=
  if is_lower_letter c then ascii_of_nat (nat_of_ascii c - 32) else c.

(** [String.prototype.toUpperCase] on ASCII text, which is what the
    command tags of the server are.  It is exact on ASCII text only:
    bytes above 127 are left as they are, whereas JavaScript also maps
    non-ASCII letters (U+017F, the long s, becomes [S]). *)
Fixpoint String_toUpperCase (s : string) : string :=
  match s with
  | EmptyString => EmptyString
  | String c rest => String (upper_char c) (String_toUpperCase rest)
  end.

(** [v.toUpperCase()]: only strings have the method. *)
Definition call_toUpperCase (v : JsVal) : Thrown + string :=
  match v with
  | JStr s => inr (String_toUpperCase s)
  | _ => inl (TypeError "toUpperCase is not a function")
  end.

(** [String.prototype.replace] with a global pattern that matches the
    single character [pat] and a replacer callback.  The callback closes
    over a mutable variable, threaded here as the state [st]; matches are
    visited left to right and the callback runs once per match. *)
Fixpoint String_replace_all {St : Type} (pat : ascii)
    (replacer : St -> string * St) (s : string) (st : St) : string * St :=
  match s with
  | EmptyString => (EmptyString, st)
  | String c rest =>
      if (c =? pat)%char then
        let (token, st1) := replacer st in
        let (out, st2) := String_replace_all pat replacer rest st1 in
        (token ++ out, st2)
      else
        let (out, st2) := String_replace_all pat replacer rest st in
        (String c out, st2)
  end.

(* ================================================================== *)
(** * Placeholder translation                                          *)
(* ================================================================== *)

Definition question_mark : ascii := "?"%char.

(** The translated invocation [{ text, values }]. *)
Record Translated : Type := mkTranslated {
  text : string;
  values : JsVal
}.

(** The arrow function [() => `$${++index}`]: pre-increment the captured
    [index], then build the token from the new value. *)
Definition dollar_token (index : nat) : string * nat :=
  let index' := S index in
  ("$" ++ Number_toString index', index').

Definition convertQuestionMarksToDollars (sql : string) (vals : JsVal)
    : Translated :=
  if negb (truthy vals) || strict_eq_zero (js_length vals) then
    {| text := sql; values := JArr [] |}
  else
    let index := 0 in
    let (txt, _) := String_replace_all question_mark dollar_token sql index in
    {| text := txt; values := vals |}.

(* ================================================================== *)
(** * The driver and the executor                                      *)
(* ================================================================== *)

(** The fields of the driver's result object that [execute] reads.  A
    property the object does not have reads as [JUndefined]. *)
Record PgResult : Type := mkPgResult {
  command : JsVal;
  rows : JsVal;
  rowCount : JsVal
}.

(** How the promise of [pool.query] settles. *)
Inductive DriverOutcome : Type :=
| Resolved (result : PgResult)
| Failed (e : JsVal).

(** How the promise of an [async] function settles. *)
Inductive Settled (A : Type) : Type :=
| Fulfilled (a : A)
| Rejected (e : Thrown).
Arguments Fulfilled {A} a.
Arguments Rejected {A} e.

(** The body of an [async] function whose only effect is a query on the
    pool: it returns, throws, or suspends on [await pool.query(text,
    values)] and resumes with the way that promise settled. *)
Inductive Async (A : Type) : Type :=
| Return (a : A)
| Throw (e : Thrown)
| AwaitQuery (txt : string) (vals : JsVal) (resume : DriverOutcome -> Async A).
Arguments Return {A} a.
Arguments Throw {A} e.
Arguments AwaitQuery {A} txt vals resume.

(** [await pool.query(text, values)] outside any [try]: a rejection is
    rethrown at the [await] with the value the promise rejected with. *)
Definition await_query {A : Type} (txt : string) (vals : JsVal)
    (k : PgResult -> Async A) : Async A :=
  AwaitQuery txt vals
    (fun outcome =>
       match outcome with
       | Resolved result => k result
       | Failed e => Throw (DriverError e)
       end).

(** [(result.command || "").toUpperCase()]. *)
Definition command_tag (result : PgResult) : Thrown + string :=
  call_toUpperCase (js_or (command result) (JStr "")).

(** The test of the [if]: [command === "SELECT" || Array.isArray(result.rows)]. *)
Definition is_read (cmd : string) (result : PgResult) : bool :=
  (cmd =? "SELECT") || Array_isArray (rows result).

(** [[result.rows, undefined]]. *)
Definition read_shape (result : PgResult) : JsVal :=
  JArr [rows result; JUndefined].

(** [[{ affectedRows: result.rowCount ?? 0, insertId: null }]]. *)
Definition status_shape (result : PgResult) : JsVal :=
  JArr [JObj [("affectedRows", js_nullish (rowCount result) (JNum 0));
              ("insertId", JNull)]].

(** [params = []]: the default applies to an argument that is
    [undefined]. *)
Definition default_params (params : JsVal) : JsVal :=
  match params with
  | JUndefined => JArr []
  | _ => params
  end.

Definition execute (sql : string) (params : JsVal) : Async JsVal :=
  let params := default_params params in
  let t := convertQuestionMarksToDollars sql params in
  await_query (text t) (values t) (fun result =>
    match command_tag result with
    | inl e => Throw e
    | inr cmd =>
        if is_read cmd result then Return (read_shape result)
        else Return (status_shape result)
    end).

(** ** Running an [async] body against a pool *)

(** One call of [pool.query]. *)
Record Call : Type := mkCall {
  call_text : string;
  call_values : JsVal
}.

(** A pool with internal state [S]: [query text values] settles and
    moves the pool to its next state. *)
Definition Pool (S : Type) : Type := string -> JsVal -> S -> DriverOutcome * S.

(** The outcome of the run, the final state of the pool and the calls
    made on it, first call first. *)
Record Run (A S : Type) : Type := mkRun {
  outcome : Settled A;
  final : S;
  calls : list Call
}.
Arguments mkRun {A S} outcome final calls.
Arguments outcome {A S} r.
Arguments final {A S} r.
Arguments calls {A S} r.

Fixpoint run {A S : Type} (pool : Pool S) (p : Async A) (st : S) : Run A S :=
  match p with
  | Return a => mkRun (Fulfilled a) st []
  | Throw e => mkRun (Rejected e) st []
  | AwaitQuery txt vals resume =>
      let (reply, st1) := pool txt vals st in
      let r := run pool (resume reply) st1 in
      mkRun (outcome r) (final r) (mkCall txt vals :: calls r)
  end.

(** The invocation [execute] hands to the pool: the translation of the
    statement and its parameters, with [[]] for parameters not passed. *)
Definition submitted (sql : string) (params : JsVal) : Translated :=
  convertQuestionMarksToDollars sql (default_params params).

(** How the pool, in state [st], replies to that call. *)
Definition driver_reply {S : Type} (pool : Pool S) (sql : string)
    (params : JsVal) (st : S) : DriverOutcome :=
  fst (pool (text (submitted sql params)) (values (submitted sql params)) st).

(** How the promise of [execute] settles on that pool. *)
Definition settled {S : Type} (pool : Pool S) (sql : string)
    (params : JsVal) (st : S) : Settled JsVal :=
  outcome (run pool (execute sql params) st).

(** A pool for tests: it replies with a prepared list of outcomes, one
    per call, and fails once the list is used up. *)
Definition scripted_pool : Pool (list DriverOutcome) :=
  fun _ _ script =>
    match script with
    | reply :: rest => (reply, rest)
    | [] => (Failed (JStr "no reply prepared"), [])
    end.

(* ================================================================== *)
(** * The configuration of the pool                                    *)
(* ================================================================== *)

(** [process.env] once [dotenv] has loaded: the variables that are set,
    each to a string. *)
Definition Env : Type := list (string * string).

(** [process.env.NAME]: the string the variable is set to, [undefined]
    for a variable that is not set. *)
Fixpoint env_get (name : string) (env : Env) : JsVal :=
  match env with
  | [] => JUndefined
  | (k, v) :: rest => if k =? name then JStr v else env_get name rest
  end.

(** The options object of [new Pool({ ... })]. *)
Record PoolConfig : Type := mkPoolConfig {
  host : JsVal;
  user : JsVal;
  password : JsVal;
  database : JsVal;
  port : JsVal
}.

Definition pool_config (env : Env) : PoolConfig :=
  {| host := env_get "DB_HOST" env;
     user := env_get "DB_USER" env;
     password := env_get "DB_PASS" env;
     database := env_get "DB_NAME" env;
     port := js_or (env_get "DB_PORT" env) (JNum 5432) |}.

(* ================================================================== *)
(** * The vocabulary of the specification                              *)
(* ================================================================== *)

(** The number of placeholder markers in a statement. *)
Fixpoint count_markers (s : string) : nat :=
  match s with
  | EmptyString => 0
  | String c rest =>
      if (c =? question_mark)%char then S (count_markers rest)
      else count_markers rest
  end.

Definition marker_free (s : string) : Prop := count_markers s = 0.

(** The pieces of a statement between its markers, left to right; a
    statement with [n] markers has [n + 1] pieces, some possibly empty. *)
Fixpoint split_markers (s : string) : list string :=
  match s with
  | EmptyString => [EmptyString]
  | String c rest =>
      if (c =? question_mark)%char then EmptyString :: split_markers rest
      else
        match split_markers rest with
        | piece :: pieces => String c piece :: pieces
        | [] => [String c EmptyString]
        end
  end.

(** The pieces put together again with a marker in every gap. *)
Fixpoint join_markers (pieces : list string) : string :=
  match pieces with
  | [] => EmptyString
  | piece :: rest =>
      match rest with
      | [] => piece
      | _ :: _ => piece ++ String question_mark (join_markers rest)
      end
  end.

(** The pieces put together with the tokens [$k], [$(k+1)], ... in the
    gaps, left to right. *)
Fixpoint join_numbered (k : nat) (pieces : list string) : string :=
  match pieces with
  | [] => EmptyString
  | piece :: rest =>
      match rest with
      | [] => piece
      | _ :: _ => piece ++ "$" ++ Number_toString k ++ join_numbered (S k) rest
      end
  end.

(** The statement with its markers numbered from [k + 1] on, by the
    scan of the code. *)
Definition numbered_from (k : nat) (s : string) : string :=
  fst (String_replace_all question_mark dollar_token s k).

Definition lower_char (c : ascii) : ascii :=
  if is_upper_letter c then ascii_of_nat (nat_of_ascii c + 32) else c.

Fixpoint fold_case (s : string) : string :=
  match s with
  | EmptyString => EmptyString
  | String c rest => String (lower_char c) (fold_case rest)
  end.

(** Two texts are equal up to the case of their ASCII letters. *)
Definition eq_ignore_case (a b : string) : Prop := fold_case a = fold_case b.

(** The command tag as the driver reports it: a string, [null] before a
    command completes, or not there at all. *)
Definition driver_tag (c : JsVal) : bool :=
  match c with
  | JStr _ | JNull | JUndefined => true
  | _ => false
  end.

Definition is_ascii_char (c : ascii) : bool := (nat_of_ascii c <? 128)%nat.

Fixpoint ascii_text (s : string) : bool :=
  match s with
  | EmptyString => true
  | String c rest => is_ascii_char c && ascii_text rest
  end.

(** The command tag, when there is one, is ASCII text. *)
Definition ascii_tag (c : JsVal) : bool :=
  match c with
  | JStr s => ascii_text s
  | _ => true
  end.

(** The parameter list is there and has at least one element. *)
Definition nonempty_list (vals : JsVal) : bool :=
  match vals with
  | JArr (_ :: _) => true
  | _ => false
  end.

(** No parameters: an empty list, [null], or nothing passed. *)
Definition no_parameters (vals : JsVal) : bool :=
  match vals with
  | JArr [] | JNull | JUndefined => true
  | _ => false
  end.

(** The result carries a row sequence. *)
Definition carries_rows (result : PgResult) : Prop :=
  exists items, rows result = JArr items.

(** The command tag equals ["SELECT"] up to case. *)
Definition tagged_select (result : PgResult) : Prop :=
  exists tag, command result = JStr tag /\ eq_ignore_case tag "SELECT".

(** The class of a statement, from the driver's result: a read when the
    tag says so or when rows came back, a mutation otherwise. *)
Definition classified_read (result : PgResult) : Prop :=
  tagged_select result \/ carries_rows result.

Definition classified_mutation (result : PgResult) : Prop :=
  ~ classified_read result.

(* ================================================================== *)
(** * Concrete runs                                                    *)
(* ================================================================== *)

Example translate_books :
  convertQuestionMarksToDollars
    "SELECT * FROM books WHERE quantity > ? AND title ILIKE ?"
    (JArr [JNum 0; JStr "%foo%"])
  = {| text := "SELECT * FROM books WHERE quantity > $1 AND title ILIKE $2";
       values := JArr [JNum 0; JStr "%foo%"] |}.
Proof. reflexivity. Qed.

Example translate_twelve :
  text (convertQuestionMarksToDollars "?,?,?,?,?,?,?,?,?,?,?,?" (JArr [JNum 1]))
  = "$1,$2,$3,$4,$5,$6,$7,$8,$9,$10,$11,$12".
Proof. reflexivity. Qed.

Example split_books :
  split_markers "a = ? AND b = ?" = ["a = "; " AND b = "; ""].
Proof. reflexivity. Qed.

Example run_update :
  outcome (run scripted_pool
             (execute "UPDATE books SET quantity = ? WHERE id = ?"
                      (JArr [JNum 5; JNum 10]))
             [Resolved {| command := JStr "UPDATE"; rows := JUndefined;
                          rowCount := JNum 1 |}])
  = Fulfilled (JArr [JObj [("affectedRows", JNum 1); ("insertId", JNull)]]).
Proof. reflexivity. Qed.

Example run_select_rows :
  outcome (run scripted_pool (execute "SELECT id, name FROM t" JUndefined)
             [Resolved {| command := JStr "SELECT";
                          rows := JArr [JObj [("id", JNum 1); ("name", JStr "a")];
                                        JObj [("id", JNum 2); ("name", JStr "b")]];
                          rowCount := JNum 2 |}])
  = Fulfilled (JArr [JArr [JObj [("id", JNum 1); ("name", JStr "a")];
                           JObj [("id", JNum 2); ("name", JStr "b")]];
                     JUndefined]).
Proof. reflexivity. Qed.

(** A tag that is neither a string nor falsy has no [toUpperCase]. *)
Example run_numeric_tag :
  outcome (run scripted_pool (execute "SELECT 1" (JArr []))
             [Resolved {| command := JNum 7; rows := JArr []; rowCount := JNum 0 |}])
  = Rejected (TypeError "toUpperCase is not a function").
Proof. reflexivity. Qed.

(* ================================================================== *)
(** * The scan of [replace]                                            *)
(* ================================================================== *)

Section Scan.

Lemma count_markers_app (a b : string) :
  count_markers (a ++ b) = count_markers a + count_markers b.
Proof.
  induction a as [|c a IH]; simpl; [reflexivity|].
  destruct (c =? question_mark)%char; simpl; rewrite IH; reflexivity.
Qed.

(** A decimal numeral holds digits only. *)
Lemma digits_marker_free (u : Decimal.uint) :
  marker_free (NilEmpty.string_of_uint u).
Proof.
  unfold marker_free.
  induction u; simpl; try reflexivity; exact IHu.
Qed.

(** The scan leaves the counter at the number of markers it met. *)
Lemma scan_counter (s : string) (k : nat) :
  snd (String_replace_all question_mark dollar_token s k)
  = k + count_markers s.
Proof.
  revert k; induction s as [|c s IH]; intros k; simpl.
  - lia.
  - destruct (c =? question_mark)%char; simpl.
    + specialize (IH (S k)).
      destruct (String_replace_all question_mark dollar_token s (S k));
        simpl in *; lia.
    + specialize (IH k).
      destruct (String_replace_all question_mark dollar_token s k);
        simpl in *; lia.
Qed.

Lemma numbered_from_marker (k : nat) (s : string) :
  numbered_from k (String question_mark s)
  = "$" ++ Number_toString (S k) ++ numbered_from (S k) s.
Proof.
  unfold numbered_from; simpl.
  destruct (String_replace_all question_mark dollar_token s (S k));
    reflexivity.
Qed.

Lemma numbered_from_other (k : nat) (c : ascii) (s : string) :
  (c =? question_mark)%char = false ->
  numbered_from k (String c s) = String c (numbered_from k s).
Proof.
  intros Hc; unfold numbered_from; simpl; rewrite Hc.
  destruct (String_replace_all question_mark dollar_token s k); reflexivity.
Qed.

Lemma append_assoc (a b c : string) : (a ++ b) ++ c = a ++ (b ++ c).
Proof. induction a as [|x a IH]; simpl; [|rewrite IH]; reflexivity. Qed.

(** The scan of a concatenation: the right part is numbered on from
    where the left part stopped. *)
Lemma numbered_from_app (k : nat) (p q : string) :
  numbered_from k (p ++ q)
  = numbered_from k p ++ numbered_from (k + count_markers p) q.
Proof.
  revert k; induction p as [|c p IH]; intros k.
  - simpl. rewrite Nat.add_0_r. reflexivity.
  - change (String c p ++ q) with (String c (p ++ q)).
    destruct (c =? question_mark)%char eqn:Hc.
    + apply Ascii.eqb_eq in Hc; subst c.
      rewrite !numbered_from_marker, IH. simpl.
      rewrite !append_assoc, Nat.add_succ_r. reflexivity.
    + rewrite !(numbered_from_other _ _ _ Hc), IH. simpl.
      rewrite Hc. reflexivity.
Qed.

(** No marker is left behind. *)
Lemma numbered_from_marker_free (k : nat) (s : string) :
  marker_free (numbered_from k s).
Proof.
  unfold marker_free.
  revert k; induction s as [|c s IH]; intros k.
  - reflexivity.
  - destruct (c =? question_mark)%char eqn:Hc.
    + apply Ascii.eqb_eq in Hc; subst c.
      rewrite numbered_from_marker.
      change ("$" ++ Number_toString (S k) ++ numbered_from (S k) s)
        with (String "$" (Number_toString (S k) ++ numbered_from (S k) s)).
      simpl. rewrite count_markers_app, IH.
      unfold Number_toString. rewrite digits_marker_free. reflexivity.
    + rewrite (numbered_from_other _ _ _ Hc). simpl. rewrite Hc. apply IH.
Qed.

(** A text without markers goes through the scan as it is. *)
Lemma numbered_from_free (k : nat) (s : string) :
  marker_free s -> numbered_from k s = s.
Proof.
  unfold marker_free.
  induction s as [|c s IH]; intros H; [reflexivity|].
  simpl in H. destruct (c =? question_mark)%char eqn:Hc; [discriminate|].
  rewrite (numbered_from_other _ _ _ Hc), IH by assumption. reflexivity.
Qed.

End Scan.

(* ================================================================== *)
(** * Pieces and markers                                               *)
(* ================================================================== *)

Section Pieces.

Lemma split_markers_length (s : string) :
  length (split_markers s) = S (count_markers s).
Proof.
  induction s as [|c s IH]; simpl; [reflexivity|].
  destruct (c =? question_mark)%char; simpl.
  - rewrite IH. reflexivity.
  - destruct (split_markers s); simpl in *; [discriminate | exact IH].
Qed.

Lemma split_markers_free (s : string) :
  Forall marker_free (split_markers s).
Proof.
  induction s as [|c s IH]; simpl.
  - constructor; [reflexivity | constructor].
  - destruct (c =? question_mark)%char eqn:Hc.
    + constructor; [reflexivity | exact IH].
    + destruct (split_markers s) as [|piece pieces].
      * constructor; [|constructor]. unfold marker_free; simpl.
        rewrite Hc. reflexivity.
      * inversion IH as [|? ? Hp Hps]; subst.
        constructor; [|exact Hps].
        unfold marker_free in *; simpl. rewrite Hc. exact Hp.
Qed.

Lemma join_split_markers (s : string) :
  join_markers (split_markers s) = s.
Proof.
  induction s as [|c s IH]; simpl; [reflexivity|].
  destruct (c =? question_mark)%char eqn:Hc.
  - apply Ascii.eqb_eq in Hc; subst c.
    pose proof (split_markers_length s) as Hl.
    destruct (split_markers s) as [|piece pieces]; [discriminate|].
    simpl in *. rewrite IH. reflexivity.
  - pose proof (split_markers_length s) as Hl.
    destruct (split_markers s) as [|piece pieces]; [discriminate|].
    simpl in *. destruct pieces; simpl in *; rewrite <- IH; reflexivity.
Qed.

(** The scan of the code puts [$(k+1)], [$(k+2)], ... in the gaps
    between the pieces. *)
Lemma numbered_from_pieces (k : nat) (s : string) :
  numbered_from k s = join_numbered (S k) (split_markers s).
Proof.
  revert k; induction s as [|c s IH]; intros k; [reflexivity|].
  pose proof (split_markers_length s) as Hl.
  simpl. destruct (c =? question_mark)%char eqn:Hc.
  - apply Ascii.eqb_eq in Hc; subst c.
    rewrite numbered_from_marker, IH.
    destruct (split_markers s) as [|piece pieces]; [discriminate|].
    reflexivity.
  - rewrite (numbered_from_other _ _ _ Hc), IH.
    destruct (split_markers s) as [|piece pieces]; [discriminate|].
    destruct pieces; reflexivity.
Qed.

End Pieces.

(* ================================================================== *)
(** * The two branches of the translation                              *)
(* ================================================================== *)

Lemma convert_nonempty (sql : string) (vals : JsVal) :
  nonempty_list vals = true ->
  convertQuestionMarksToDollars sql vals
  = {| text := numbered_from 0 sql; values := vals |}.
Proof.
  destruct vals as [| | | | |items|]; try discriminate.
  destruct items as [|v items]; [discriminate|]. intros _.
  unfold convertQuestionMarksToDollars, numbered_from.
  cbn [truthy negb orb js_length strict_eq_zero length].
  destruct (String_replace_all question_mark dollar_token sql 0); reflexivity.
Qed.

Lemma convert_no_parameters (sql : string) (vals : JsVal) :
  no_parameters vals = true ->
  convertQuestionMarksToDollars sql vals = {| text := sql; values := JArr [] |}.
Proof.
  destruct vals as [| | | | |items|]; try discriminate;
    try (intros _; reflexivity).
  destruct items; [intros _; reflexivity | discriminate].
Qed.

Lemma split_markers_piece (piece rest : string) :
  marker_free piece ->
  split_markers (piece ++ String question_mark rest)
  = piece :: split_markers rest.
Proof.
  unfold marker_free.
  induction piece as [|c piece IH]; intros H; [reflexivity|].
  simpl in *. destruct (c =? question_mark)%char; [discriminate|].
  rewrite IH by assumption. reflexivity.
Qed.

Lemma split_markers_last (piece : string) :
  marker_free piece -> split_markers piece = [piece].
Proof.
  unfold marker_free.
  induction piece as [|c piece IH]; intros H; [reflexivity|].
  simpl in *. destruct (c =? question_mark)%char; [discriminate|].
  rewrite IH by assumption. reflexivity.
Qed.

(** Pieces without markers are the pieces of their join. *)
Lemma split_join_markers (pieces : list string) :
  pieces <> [] -> Forall marker_free pieces ->
  split_markers (join_markers pieces) = pieces.
Proof.
  induction pieces as [|piece rest IH]; intros Hne Hfree; [congruence|].
  inversion Hfree as [|? ? Hp Hrest]; subst.
  destruct rest as [|next rest].
  - simpl. apply split_markers_last, Hp.
  - change (join_markers (piece :: next :: rest))
      with (piece ++ String question_mark (join_markers (next :: rest))).
    rewrite split_markers_piece by assumption.
    rewrite IH by (assumption || discriminate). reflexivity.
Qed.

Lemma nonempty_list_cons (params : list JsVal) :
  params <> [] -> nonempty_list (JArr params) = true.
Proof. destruct params; [congruence | reflexivity]. Qed.

(* ================================================================== *)
(** * One run of [execute]                                             *)
(* ================================================================== *)

Section OneRun.

Context {S : Type}.
Variable pool : Pool S.
Variables (sql : string) (params : JsVal) (st : S).

Local Abbreviation t := (submitted sql params).
Local Abbreviation reply := (driver_reply pool sql params st).

(** Whatever the pool replies, [execute] has called it once, with the
    translated text and the values. *)
Lemma run_execute_calls :
  calls (run pool (execute sql params) st)
  = [ {| call_text := text t; call_values := values t |} ].
Proof.
  unfold execute, await_query, submitted; simpl.
  destruct (pool _ _ st) as [r st1].
  destruct r as [result|e]; simpl; [|reflexivity].
  destruct (command_tag result) as [e|cmd]; [reflexivity|].
  destruct (is_read cmd result); reflexivity.
Qed.

(** The pool is left in the state that one call put it in. *)
Lemma run_execute_final :
  final (run pool (execute sql params) st)
  = snd (pool (text t) (values t) st).
Proof.
  unfold execute, await_query, submitted; simpl.
  destruct (pool _ _ st) as [r st1].
  destruct r as [result|e]; simpl; [|reflexivity].
  destruct (command_tag result) as [e|cmd]; [reflexivity|].
  destruct (is_read cmd result); reflexivity.
Qed.

Lemma run_execute_failed (e : JsVal) :
  reply = Failed e ->
  settled pool sql params st = Rejected (DriverError e).
Proof.
  unfold settled, driver_reply, execute, await_query, submitted; simpl.
  destruct (pool _ _ st) as [r st1]; simpl.
  intros ->. reflexivity.
Qed.

Lemma run_execute_resolved (result : PgResult) :
  reply = Resolved result ->
  settled pool sql params st
  = match command_tag result with
    | inl e => Rejected e
    | inr cmd =>
        Fulfilled (if is_read cmd result then read_shape result
                   else status_shape result)
    end.
Proof.
  unfold settled, driver_reply, execute, await_query, submitted; simpl.
  destruct (pool _ _ st) as [r st1]; simpl.
  intros ->. simpl.
  destruct (command_tag result) as [e|cmd]; [reflexivity|].
  destruct (is_read cmd result); reflexivity.
Qed.

End OneRun.

(* ================================================================== *)
(** * Properties of the translation                                    *)
(* ================================================================== *)

(** C1. A statement with [n] markers is [n + 1] marker-free pieces with a
    marker in each gap.  Translated with a non-empty list of [n]
    parameters, its text is the same pieces with [$1], [$2], ..., [$n]
    in the gaps, left to right, and the parameters come back as they
    were given, in the same order. *)
Theorem markers_numbered_in_order
    (pieces : list string) (params : list JsVal) (n : nat) :
  Forall marker_free pieces ->
  length pieces = S n ->
  length params = n ->
  params <> [] ->
  count_markers (join_markers pieces) = n /\
  convertQuestionMarksToDollars (join_markers pieces) (JArr params)
  = {| text := join_numbered 1 pieces; values := JArr params |}.
Proof.
  intros Hfree Hlen _ Hne.
  assert (Hp : pieces <> []) by (destruct pieces; [discriminate | congruence]).
  split.
  - pose proof (split_markers_length (join_markers pieces)) as H.
    rewrite (split_join_markers pieces Hp Hfree), Hlen in H. congruence.
  - rewrite convert_nonempty by (apply nonempty_list_cons, Hne).
    rewrite numbered_from_pieces, (split_join_markers pieces Hp Hfree).
    reflexivity.
Qed.

Lemma markers_numbered_in_order_witness :
  count_markers "a = ? AND b = ?" = 2 /\
  convertQuestionMarksToDollars "a = ? AND b = ?" (JArr [JNum 0; JStr "%foo%"])
  = {| text := "a = $1 AND b = $2"; values := JArr [JNum 0; JStr "%foo%"] |}.
Proof.
  apply (markers_numbered_in_order ["a = "; " AND b = "; ""]
           [JNum 0; JStr "%foo%"] 2).
  - repeat constructor.
  - reflexivity.
  - reflexivity.
  - discriminate.
Defined.

(** C2. With no parameters (an empty list, [null], or [undefined]) the
    translation gives back the statement text as it is, markers
    included, and an empty parameter list; [execute] called without
    parameters submits exactly that. *)
Theorem no_parameters_no_substitution (sql : string) :
  convertQuestionMarksToDollars sql (JArr [])
  = {| text := sql; values := JArr [] |} /\
  convertQuestionMarksToDollars sql JUndefined
  = {| text := sql; values := JArr [] |} /\
  convertQuestionMarksToDollars sql JNull
  = {| text := sql; values := JArr [] |} /\
  convertQuestionMarksToDollars sql (default_params JUndefined)
  = {| text := sql; values := JArr [] |}.
Proof. repeat split. Qed.

(** C5. The translated text does not depend on the parameter values:
    two non-empty parameter lists of the same length give the same text
    for the same statement (any other non-empty list gives it too), the
    list comes back unchanged, and the one call [execute] makes on the
    pool carries the list as it was given, next to the text. *)
Theorem text_independent_of_values
    (sql : string) (params1 params2 : list JsVal) :
  params1 <> [] -> params2 <> [] -> length params1 = length params2 ->
  text (convertQuestionMarksToDollars sql (JArr params1))
  = text (convertQuestionMarksToDollars sql (JArr params2)) /\
  values (convertQuestionMarksToDollars sql (JArr params1)) = JArr params1 /\
  (forall other : list JsVal, other <> [] ->
     text (convertQuestionMarksToDollars sql (JArr other))
     = text (convertQuestionMarksToDollars sql (JArr params1))) /\
  forall (S : Type) (pool : Pool S) (st : S),
    calls (run pool (execute sql (JArr params1)) st)
    = [ {| call_text := text (convertQuestionMarksToDollars sql (JArr params2));
           call_values := JArr params1 |} ].
Proof.
  intros H1 H2 _.
  rewrite !convert_nonempty by (apply nonempty_list_cons; assumption).
  repeat split.
  { intros other Hother.
    rewrite convert_nonempty by (apply nonempty_list_cons; assumption).
    reflexivity. }
  intros S pool st. rewrite run_execute_calls. unfold submitted.
  cbn [default_params].
  rewrite convert_nonempty by (apply nonempty_list_cons; assumption).
  reflexivity.
Qed.

Lemma text_independent_of_values_witness :
  text (convertQuestionMarksToDollars "name = ?" (JArr [JStr "x' OR '1'='1"]))
  = text (convertQuestionMarksToDollars "name = ?" (JArr [JNum 7])) /\
  values (convertQuestionMarksToDollars "name = ?" (JArr [JStr "x' OR '1'='1"]))
  = JArr [JStr "x' OR '1'='1"] /\
  (forall other : list JsVal, other <> [] ->
     text (convertQuestionMarksToDollars "name = ?" (JArr other))
     = text (convertQuestionMarksToDollars "name = ?"
               (JArr [JStr "x' OR '1'='1"]))) /\
  forall (S : Type) (pool : Pool S) (st : S),
    calls (run pool (execute "name = ?" (JArr [JStr "x' OR '1'='1"])) st)
    = [ {| call_text :=
             text (convertQuestionMarksToDollars "name = ?" (JArr [JNum 7]));
           call_values := JArr [JStr "x' OR '1'='1"] |} ].
Proof.
  apply (text_independent_of_values "name = ?"
           [JStr "x' OR '1'='1"] [JNum 7]).
  - discriminate.
  - discriminate.
  - reflexivity.
Defined.

(** C7. The number of markers is not compared with the number of
    parameters.  When they differ and the list is not empty, the
    statement is still cut at each of its [m] markers into [m + 1]
    pieces and every marker is numbered, [$1] up to [$m]; no marker is
    left, the list comes back unchanged, and [execute] submits this text
    and this list to the pool: the translation has no failing outcome,
    the mismatch is the driver's to report. *)
Theorem mismatch_not_checked (sql : string) (params : list JsVal) :
  params <> [] ->
  count_markers sql <> length params ->
  let t := convertQuestionMarksToDollars sql (JArr params) in
  sql = join_markers (split_markers sql) /\
  Forall marker_free (split_markers sql) /\
  length (split_markers sql) = S (count_markers sql) /\
  text t = join_numbered 1 (split_markers sql) /\
  marker_free (text t) /\
  values t = JArr params /\
  forall (S : Type) (pool : Pool S) (st : S),
    calls (run pool (execute sql (JArr params)) st)
    = [ {| call_text := join_numbered 1 (split_markers sql);
           call_values := JArr params |} ].
Proof.
  intros Hne _ t. subst t.
  rewrite convert_nonempty by (apply nonempty_list_cons, Hne).
  cbn [text values].
  repeat split.
  - symmetry. apply join_split_markers.
  - apply split_markers_free.
  - apply split_markers_length.
  - apply numbered_from_pieces.
  - apply numbered_from_marker_free.
  - intros S pool st. rewrite run_execute_calls. unfold submitted.
    cbn [default_params].
    rewrite convert_nonempty by (apply nonempty_list_cons, Hne).
    cbn [text values]. rewrite numbered_from_pieces. reflexivity.
Qed.

Lemma mismatch_not_checked_witness :
  text (convertQuestionMarksToDollars "a = ? AND b = ? AND c = ?" (JArr [JNum 1]))
  = "a = $1 AND b = $2 AND c = $3" /\
  values (convertQuestionMarksToDollars "a = ? AND b = ? AND c = ?" (JArr [JNum 1]))
  = JArr [JNum 1].
Proof.
  destruct (mismatch_not_checked "a = ? AND b = ? AND c = ?" [JNum 1])
    as (_ & _ & _ & Htext & _ & Hvalues & _).
  - discriminate.
  - simpl. lia.
  - split; [exact Htext | exact Hvalues].
Defined.

(** C8. The scan does not look at what surrounds a marker.  Whatever
    stands before and after a ['?'] (an open quote, a comment, anything)
    that ['?'] is replaced by the next token, numbered one more than the
    markers before it, and the translated text has no ['?'] left. *)
Theorem substitution_is_context_blind
    (before after : string) (params : list JsVal) :
  params <> [] ->
  let t := convertQuestionMarksToDollars
             (before ++ String question_mark after) (JArr params) in
  text t
  = numbered_from 0 before
    ++ "$" ++ Number_toString (S (count_markers before))
    ++ numbered_from (S (count_markers before)) after /\
  marker_free (text t).
Proof.
  intros Hne t. subst t.
  rewrite convert_nonempty by (apply nonempty_list_cons, Hne).
  cbn [text]. split.
  - rewrite numbered_from_app, numbered_from_marker. reflexivity.
  - apply numbered_from_marker_free.
Qed.

Lemma substitution_is_context_blind_witness :
  text (convertQuestionMarksToDollars
          "SELECT 'why?' AS q FROM t WHERE id = ? -- sure?" (JArr [JNum 4]))
  = "SELECT 'why$1' AS q FROM t WHERE id = $2 -- sure$3".
Proof.
  destruct (substitution_is_context_blind
              "SELECT 'why" "' AS q FROM t WHERE id = ? -- sure?" [JNum 4])
    as [Htext _].
  - discriminate.
  - exact Htext.
Defined.

(* ================================================================== *)
(** * Letter case                                                      *)
(* ================================================================== *)

Lemma lower_upper_char (c : ascii) : lower_char (upper_char c) = lower_char c.
Proof. destruct c as [[] [] [] [] [] [] [] []]; reflexivity. Qed.

Lemma upper_lower_char (c : ascii) : upper_char (lower_char c) = upper_char c.
Proof. destruct c as [[] [] [] [] [] [] [] []]; reflexivity. Qed.

Lemma fold_case_upper (s : string) : fold_case (String_toUpperCase s) = fold_case s.
Proof.
  induction s as [|c s IH]; simpl; [reflexivity|].
  rewrite lower_upper_char, IH. reflexivity.
Qed.

Lemma upper_fold_case (s : string) :
  String_toUpperCase (fold_case s) = String_toUpperCase s.
Proof.
  induction s as [|c s IH]; simpl; [reflexivity|].
  rewrite upper_lower_char, IH. reflexivity.
Qed.

(** Comparing the upper-cased tag with a name written in capitals is
    comparing the two without regard to case. *)
Lemma upper_eq_ignore_case (s name : string) :
  String_toUpperCase name = name ->
  String_toUpperCase s = name <-> eq_ignore_case s name.
Proof.
  intros Hname. unfold eq_ignore_case. split; intros H.
  - rewrite <- H. symmetry. apply fold_case_upper.
  - rewrite <- (upper_fold_case s), H, upper_fold_case. exact Hname.
Qed.

(** The tag of a driver's result is a string or missing, so reading it
    never throws: a missing tag reads as the empty text. *)
Lemma command_tag_driver (result : PgResult) :
  driver_tag (command result) = true ->
  command_tag result
  = inr (match command result with
         | JStr s => String_toUpperCase s
         | _ => EmptyString
         end).
Proof.
  unfold command_tag, js_or.
  destruct (command result) as [| | | |s| |]; try discriminate;
    try (intros _; reflexivity).
  intros _. destruct s; reflexivity.
Qed.

Lemma carries_rows_isArray (result : PgResult) :
  Array_isArray (rows result) = true <-> carries_rows result.
Proof.
  unfold carries_rows. split.
  - destruct (rows result) as [| | | | |items|]; try discriminate.
    intros _. exists items. reflexivity.
  - intros [items ->]. reflexivity.
Qed.

(** The test of the [if] decides the class of the statement, for a tag
    in ASCII. *)
Lemma is_read_classified (result : PgResult) (cmd : string) :
  driver_tag (command result) = true ->
  ascii_tag (command result) = true ->
  command_tag result = inr cmd ->
  is_read cmd result = true <-> classified_read result.
Proof.
  intros Htag _ Hcmd. rewrite (command_tag_driver result Htag) in Hcmd.
  injection Hcmd as <-.
  unfold is_read, classified_read, tagged_select.
  rewrite orb_true_iff, carries_rows_isArray, String.eqb_eq.
  split; (intros [H|H]; [|right; exact H]).
  - destruct (command result) as [| | | |s| |]; try discriminate H.
    left. exists s. split; [reflexivity|].
    apply upper_eq_ignore_case; [reflexivity | exact H].
  - destruct H as (tag & -> & H). left.
    apply upper_eq_ignore_case; [reflexivity | exact H].
Qed.

(* ================================================================== *)
(** * Properties of the executor                                       *)
(* ================================================================== *)

Section Normalisation.

Context {S : Type}.
Variable pool : Pool S.
Variables (sql : string) (params : JsVal) (st : S).

Local Abbreviation t := (submitted sql params).
Local Abbreviation reply := (driver_reply pool sql params st).
Local Abbreviation settled := (settled pool sql params st).

Lemma settled_driver_tag (result : PgResult) :
  reply = Resolved result ->
  driver_tag (command result) = true ->
  exists cmd,
    command_tag result = inr cmd /\
    settled = Fulfilled (if is_read cmd result then read_shape result
                         else status_shape result).
Proof.
  intros Hreply Htag.
  rewrite (run_execute_resolved pool sql params st result Hreply).
  rewrite (command_tag_driver result Htag). eexists. split; reflexivity.
Qed.

(** C3. When the query resolves, the result is normalised to the read
    shape [[rows, undefined]], the result's rows first and [undefined]
    second, exactly when its command tag is ["SELECT"] up to case or it
    carries a row sequence; this equivalence is for a tag in ASCII.  A
    result that carries rows comes back as those rows and [undefined],
    whatever its tag; with no rows at all it is [[[], undefined]]. *)
Theorem read_results_normalised (result : PgResult) :
  reply = Resolved result ->
  driver_tag (command result) = true ->
  (ascii_tag (command result) = true ->
   (settled = Fulfilled (JArr [rows result; JUndefined])
    <-> classified_read result)) /\
  (forall items, rows result = JArr items ->
     settled = Fulfilled (JArr [JArr items; JUndefined])) /\
  (rows result = JArr [] ->
     settled = Fulfilled (JArr [JArr []; JUndefined])).
Proof.
  intros Hreply Htag.
  destruct (settled_driver_tag result Hreply Htag) as (cmd & Hcmd & Hs).
  assert (Hrows : forall items, rows result = JArr items ->
            settled = Fulfilled (JArr [JArr items; JUndefined])).
  { intros items Hitems. rewrite Hs. unfold is_read, read_shape.
    rewrite Hitems, orb_true_r. reflexivity. }
  split; [|split; [exact Hrows | apply Hrows]].
  intros Hascii.
  pose proof (is_read_classified result cmd Htag Hascii Hcmd) as Hclass.
  split.
  - intros Hshape. apply Hclass. rewrite Hs in Hshape.
    destruct (is_read cmd result); [reflexivity|].
    unfold status_shape in Hshape. discriminate Hshape.
  - intros Hread. apply Hclass in Hread. rewrite Hs, Hread. reflexivity.
Qed.

(** C4. When the query resolves with a result classified as a mutation
    (its tag, in ASCII, is not ["SELECT"] up to case and it carries no
    row sequence), the normalised result is a one-element structure
    whose first element is the status mapping with [affectedRows] and
    [insertId].  [affectedRows] is the row count the driver reported,
    and [0] when it reported none ([undefined] or [null]); [insertId] is
    [null]. *)
Theorem mutation_results_normalised (result : PgResult) :
  reply = Resolved result ->
  driver_tag (command result) = true ->
  ascii_tag (command result) = true ->
  classified_mutation result ->
  exists affected,
    settled = Fulfilled (JArr [JObj [("affectedRows", affected);
                                      ("insertId", JNull)]]) /\
    (rowCount result = JUndefined \/ rowCount result = JNull ->
       affected = JNum 0) /\
    (rowCount result <> JUndefined -> rowCount result <> JNull ->
       affected = rowCount result).
Proof.
  intros Hreply Htag Hascii Hmut.
  destruct (settled_driver_tag result Hreply Htag) as (cmd & Hcmd & Hs).
  pose proof (is_read_classified result cmd Htag Hascii Hcmd) as Hclass.
  destruct (is_read cmd result).
  - exfalso. apply Hmut, Hclass. reflexivity.
  - exists (js_nullish (rowCount result) (JNum 0)).
    split; [exact Hs|]. split.
    + intros [-> | ->]; reflexivity.
    + intros Hu Hn. destruct (rowCount result); congruence || reflexivity.
Qed.

(** C9. Rows win over the tag.  A resolved result that carries an array
    of rows is normalised to [[rows, undefined]] whatever its command
    tag says, [INSERT], [UPDATE] and [DELETE] included; the status
    object is returned only for a result whose [rows] is not an
    array. *)
Theorem rows_take_precedence (result : PgResult) :
  reply = Resolved result ->
  driver_tag (command result) = true ->
  (forall items, rows result = JArr items ->
     settled = Fulfilled (JArr [JArr items; JUndefined])) /\
  (forall affected,
     settled = Fulfilled (JArr [JObj [("affectedRows", affected);
                                       ("insertId", JNull)]]) ->
     Array_isArray (rows result) = false).
Proof.
  intros Hreply Htag.
  destruct (settled_driver_tag result Hreply Htag) as (cmd & Hcmd & Hs).
  split.
  - intros items Hitems. rewrite Hs. unfold is_read, read_shape.
    rewrite Hitems, orb_true_r. reflexivity.
  - intros affected Hshape. rewrite Hs in Hshape. unfold is_read in Hshape.
    destruct (Array_isArray (rows result)); [|reflexivity].
    rewrite orb_true_r in Hshape. unfold read_shape in Hshape.
    discriminate Hshape.
Qed.

(** C10. A result with no command tag ([undefined] or [null]) is
    normalised without an exception: the tag reads as the empty text,
    and the class is decided by the rows alone, the read shape if
    [rows] is an array and the status mapping if not. *)
Theorem missing_tag_reads_as_empty (result : PgResult) :
  reply = Resolved result ->
  command result = JUndefined \/ command result = JNull ->
  command_tag result = inr EmptyString /\
  (carries_rows result ->
     settled = Fulfilled (JArr [rows result; JUndefined])) /\
  (~ carries_rows result ->
     settled = Fulfilled (status_shape result)).
Proof.
  intros Hreply Hmissing.
  assert (Hcmd : command_tag result = inr EmptyString).
  { unfold command_tag. destruct Hmissing as [-> | ->]; reflexivity. }
  rewrite (run_execute_resolved pool sql params st result Hreply), Hcmd.
  unfold is_read. cbn [String.eqb orb].
  repeat split.
  - intros Hrows. apply carries_rows_isArray in Hrows. rewrite Hrows.
    reflexivity.
  - intros Hrows. destruct (Array_isArray (rows result)) eqn:Harr.
    + exfalso. apply Hrows, carries_rows_isArray, Harr.
    + reflexivity.
Qed.

(** C6. [execute] calls the pool exactly once, whatever the reply, and
    leaves the pool as that call left it.  If the call fails with [e],
    [execute] rejects with that same [e]; if the call resolves with a
    driver result, [execute] fulfils.  So [execute] rejects if and only
    if the call failed, and then with the driver's error. *)
Theorem driver_errors_propagate :
  (forall result, reply = Resolved result ->
     driver_tag (command result) = true) ->
  calls (run pool (execute sql params) st)
  = [ {| call_text := text t; call_values := values t |} ] /\
  final (run pool (execute sql params) st)
  = snd (pool (text t) (values t) st) /\
  (forall e, reply = Failed e -> settled = Rejected (DriverError e)) /\
  (forall result, reply = Resolved result -> exists v, settled = Fulfilled v) /\
  (forall thrown, settled = Rejected thrown <->
     exists e, reply = Failed e /\ thrown = DriverError e).
Proof.
  intros Hwf.
  assert (Hfail : forall e, reply = Failed e ->
            settled = Rejected (DriverError e)).
  { intros e He. apply (run_execute_failed pool sql params st e He). }
  assert (Hok : forall result, reply = Resolved result ->
            exists v, settled = Fulfilled v).
  { intros result Hr.
    destruct (settled_driver_tag result Hr (Hwf result Hr)) as (cmd & _ & Hs).
    eexists. exact Hs. }
  split; [apply run_execute_calls|].
  split; [apply run_execute_final|].
  split; [exact Hfail|]. split; [exact Hok|].
  intros thrown. split.
  - intros Hrej. destruct reply as [result|e] eqn:Hreply.
    + destruct (Hok result eq_refl) as [v Hv]. congruence.
    + exists e. split; [reflexivity|].
      specialize (Hfail e eq_refl). congruence.
  - intros (e & He & ->). apply Hfail, He.
Qed.

End Normalisation.

(* ================================================================== *)
(** * The properties on concrete runs                                  *)
(* ================================================================== *)

(** A lower-case tag and no rows. *)
Lemma read_results_normalised_witness :
  outcome (run scripted_pool
             (execute "SELECT * FROM books WHERE id = ?" (JArr [JNum 9]))
             [Resolved {| command := JStr "select"; rows := JArr [];
                          rowCount := JNum 0 |}])
  = Fulfilled (JArr [JArr []; JUndefined]).
Proof.
  destruct (read_results_normalised scripted_pool
              "SELECT * FROM books WHERE id = ?" (JArr [JNum 9])
              [Resolved {| command := JStr "select"; rows := JArr [];
                           rowCount := JNum 0 |}]
              {| command := JStr "select"; rows := JArr [];
                 rowCount := JNum 0 |})
    as (Hclass & _ & _).
  - reflexivity.
  - reflexivity.
  - unfold settled in Hclass. apply Hclass; [reflexivity|].
    left. exists "select". split; reflexivity.
Defined.

(** An update of three rows. *)
Lemma mutation_results_normalised_witness :
  outcome (run scripted_pool
             (execute "UPDATE books SET quantity = ? WHERE id = ?"
                      (JArr [JNum 5; JNum 10]))
             [Resolved {| command := JStr "UPDATE"; rows := JUndefined;
                          rowCount := JNum 3 |}])
  = Fulfilled (JArr [JObj [("affectedRows", JNum 3); ("insertId", JNull)]]).
Proof.
  destruct (mutation_results_normalised scripted_pool
              "UPDATE books SET quantity = ? WHERE id = ?"
              (JArr [JNum 5; JNum 10])
              [Resolved {| command := JStr "UPDATE"; rows := JUndefined;
                           rowCount := JNum 3 |}]
              {| command := JStr "UPDATE"; rows := JUndefined;
                 rowCount := JNum 3 |})
    as (affected & Hsettled & _ & Hcount).
  - reflexivity.
  - reflexivity.
  - reflexivity.
  - intros [(tag & Htag & Hcase) | (items & Hitems)].
    + injection Htag as <-. discriminate Hcase.
    + discriminate Hitems.
  - unfold settled in Hsettled.
    rewrite Hsettled, Hcount; [reflexivity | discriminate | discriminate].
Defined.

(** An insert with a returning clause: the tag is [INSERT], rows came
    back. *)
Lemma rows_take_precedence_witness :
  outcome (run scripted_pool
             (execute "INSERT INTO books (title) VALUES (?) RETURNING id"
                      (JArr [JStr "Dune"]))
             [Resolved {| command := JStr "INSERT";
                          rows := JArr [JObj [("id", JNum 41)]];
                          rowCount := JNum 1 |}])
  = Fulfilled (JArr [JArr [JObj [("id", JNum 41)]]; JUndefined]).
Proof.
  destruct (rows_take_precedence scripted_pool
              "INSERT INTO books (title) VALUES (?) RETURNING id"
              (JArr [JStr "Dune"])
              [Resolved {| command := JStr "INSERT";
                           rows := JArr [JObj [("id", JNum 41)]];
                           rowCount := JNum 1 |}]
              {| command := JStr "INSERT";
                 rows := JArr [JObj [("id", JNum 41)]];
                 rowCount := JNum 1 |})
    as (Hrows & _).
  - reflexivity.
  - reflexivity.
  - unfold settled in Hrows. apply Hrows. reflexivity.
Defined.

(** A result with no tag and no rows. *)
Lemma missing_tag_reads_as_empty_witness :
  command_tag {| command := JNull; rows := JUndefined; rowCount := JNull |}
  = inr EmptyString /\
  outcome (run scripted_pool (execute "VACUUM" JUndefined)
             [Resolved {| command := JNull; rows := JUndefined;
                          rowCount := JNull |}])
  = Fulfilled (JArr [JObj [("affectedRows", JNum 0); ("insertId", JNull)]]).
Proof.
  destruct (missing_tag_reads_as_empty scripted_pool "VACUUM" JUndefined
              [Resolved {| command := JNull; rows := JUndefined;
                           rowCount := JNull |}]
              {| command := JNull; rows := JUndefined; rowCount := JNull |})
    as (Htag & _ & Hstatus).
  - reflexivity.
  - right. reflexivity.
  - split; [exact Htag|]. unfold settled in Hstatus. apply Hstatus.
    intros (items & Hitems). discriminate Hitems.
Defined.

(** A constraint violation on the first call; a second reply is ready
    and is not asked for. *)
Lemma driver_errors_propagate_witness :
  let script :=
    [Failed (JObj [("code", JStr "23505")]);
     Resolved {| command := JStr "INSERT"; rows := JArr [];
                 rowCount := JNum 1 |}] in
  let r := run scripted_pool
             (execute "INSERT INTO authors (name) VALUES (?)"
                      (JArr [JStr "Le Guin"])) script in
  outcome r = Rejected (DriverError (JObj [("code", JStr "23505")])) /\
  length (calls r) = 1 /\
  length (final r) = 1.
Proof.
  intros script r.
  destruct (driver_errors_propagate scripted_pool
              "INSERT INTO authors (name) VALUES (?)"
              (JArr [JStr "Le Guin"]) script)
    as (Hcalls & Hfinal & Hfail & _ & _).
  - intros result Hreply. discriminate Hreply.
  - unfold settled in Hfail. split; [apply Hfail; reflexivity|].
    split; [fold r in Hcalls; rewrite Hcalls | fold r in Hfinal; rewrite Hfinal];
      reflexivity.
Defined.

(* ================================================================== *)
(** * Further properties of the translation                            *)
(* ================================================================== *)

(** The text of a translation is the statement itself or its scan. *)
Lemma convert_text_cases (sql : string) (vals : JsVal) :
  text (convertQuestionMarksToDollars sql vals) = sql \/
  text (convertQuestionMarksToDollars sql vals) = numbered_from 0 sql.
Proof.
  unfold convertQuestionMarksToDollars, numbered_from.
  destruct (negb (truthy vals) || strict_eq_zero (js_length vals)).
  - left. reflexivity.
  - right.
    destruct (String_replace_all question_mark dollar_token sql 0).
    reflexivity.
Qed.

(** X1. A statement without any ['?'] (one already written with [$1],
    [$2], ..., or one with no placeholder) is never altered, whatever is
    passed as parameters, and [execute] submits it to the pool as it
    is. *)
Theorem marker_free_statement_unchanged (sql : string) (vals : JsVal) :
  marker_free sql ->
  text (convertQuestionMarksToDollars sql vals) = sql /\
  forall (S : Type) (pool : Pool S) (st : S),
    map call_text (calls (run pool (execute sql vals) st)) = [sql].
Proof.
  intros Hfree.
  assert (H : forall v, text (convertQuestionMarksToDollars sql v) = sql).
  { intros v. destruct (convert_text_cases sql v) as [-> | ->];
      [reflexivity | apply numbered_from_free, Hfree]. }
  split; [apply H|].
  intros S pool st. rewrite run_execute_calls. unfold submitted. simpl.
  rewrite H. reflexivity.
Qed.

Lemma marker_free_statement_unchanged_witness :
  text (convertQuestionMarksToDollars
          "SELECT id FROM books LIMIT $1 OFFSET $2" (JArr [JNum 10; JNum 20]))
  = "SELECT id FROM books LIMIT $1 OFFSET $2".
Proof.
  destruct (marker_free_statement_unchanged
              "SELECT id FROM books LIMIT $1 OFFSET $2"
              (JArr [JNum 10; JNum 20])) as [Htext _].
  - reflexivity.
  - exact Htext.
Defined.

(** X2. Translating twice is translating once: the text translated with
    a non-empty parameter list has no marker left, so a second
    translation, with any parameters, gives the same text back. *)
Theorem translation_is_stable
    (sql : string) (params : list JsVal) (again : JsVal) :
  params <> [] ->
  text (convertQuestionMarksToDollars
          (text (convertQuestionMarksToDollars sql (JArr params))) again)
  = text (convertQuestionMarksToDollars sql (JArr params)).
Proof.
  intros Hne.
  rewrite (convert_nonempty sql (JArr params))
    by (apply nonempty_list_cons, Hne).
  cbn [text].
  destruct (convert_text_cases (numbered_from 0 sql) again) as [-> | ->];
    [reflexivity|].
  apply numbered_from_free, numbered_from_marker_free.
Qed.

Lemma translation_is_stable_witness :
  text (convertQuestionMarksToDollars
          (text (convertQuestionMarksToDollars "a = ? AND b = ?"
                   (JArr [JNum 1; JNum 2])))
          (JArr [JNum 1; JNum 2]))
  = "a = $1 AND b = $2".
Proof.
  rewrite (translation_is_stable "a = ? AND b = ?" [JNum 1; JNum 2]
             (JArr [JNum 1; JNum 2])).
  - reflexivity.
  - discriminate.
Defined.

(** X3. Numbered tokens already in the statement are neither noticed nor
    renumbered: an existing [$k] is copied as it is and the first marker
    after it still becomes [$1].  A statement that mixes [$1] with a
    later ['?'] therefore ends with two references to parameter 1. *)
Theorem existing_tokens_not_renumbered
    (a b c : string) (k : nat) (params : list JsVal) :
  params <> [] ->
  marker_free a -> marker_free b -> marker_free c ->
  text (convertQuestionMarksToDollars
          (a ++ "$" ++ Number_toString k ++ b ++ String question_mark c)
          (JArr params))
  = a ++ "$" ++ Number_toString k ++ b ++ "$1" ++ c.
Proof.
  intros Hne Ha Hb Hc.
  rewrite convert_nonempty by (apply nonempty_list_cons, Hne).
  cbn [text].
  set (pre := a ++ "$" ++ Number_toString k ++ b).
  assert (Hpre : marker_free pre).
  { unfold marker_free in *. unfold pre.
    rewrite count_markers_app, Ha.
    change ("$" ++ Number_toString k ++ b)
      with (String "$" (Number_toString k ++ b)).
    simpl. rewrite count_markers_app, Hb.
    unfold Number_toString. rewrite digits_marker_free. reflexivity. }
  assert (E : forall tail,
            a ++ "$" ++ Number_toString k ++ b ++ tail = pre ++ tail).
  { intros tail. unfold pre. rewrite !append_assoc. reflexivity. }
  rewrite !E, numbered_from_app, (numbered_from_free 0 pre Hpre), Hpre.
  cbn [Nat.add].
  rewrite numbered_from_marker, (numbered_from_free 1 c Hc).
  reflexivity.
Qed.

Lemma existing_tokens_not_renumbered_witness :
  text (convertQuestionMarksToDollars
          "UPDATE books SET title = $1 WHERE id = ?" (JArr [JStr "Dune"; JNum 3]))
  = "UPDATE books SET title = $1 WHERE id = $1".
Proof.
  apply (existing_tokens_not_renumbered
           "UPDATE books SET title = " " WHERE id = " "" 1
           [JStr "Dune"; JNum 3]).
  - discriminate.
  - reflexivity.
  - reflexivity.
  - reflexivity.
Defined.

(* ================================================================== *)
(** * Further properties of the executor                               *)
(* ================================================================== *)

Section Outcomes.

Context {S : Type}.
Variable pool : Pool S.
Variables (sql : string) (params : JsVal) (st : S).

Local Abbreviation reply := (driver_reply pool sql params st).
Local Abbreviation settled := (settled pool sql params st).

(** X4. Whenever [execute] fulfils, the query resolved and the value is
    one of two arrays: the result's [rows] followed by [undefined], or,
    for a result whose [rows] is not an array, a single status object
    with [affectedRows] and [insertId], where [affectedRows] is neither
    [undefined] nor [null] and [insertId] is [null].  Taking the first
    element of the value never reads past its end. *)
Theorem fulfilled_shapes (v : JsVal) :
  settled = Fulfilled v ->
  exists result,
    reply = Resolved result /\
    (v = JArr [rows result; JUndefined] \/
     exists affected,
       v = JArr [JObj [("affectedRows", affected); ("insertId", JNull)]] /\
       Array_isArray (rows result) = false /\
       affected <> JUndefined /\ affected <> JNull).
Proof.
  intros Hv. destruct reply as [result|e] eqn:Hreply.
  - exists result. split; [reflexivity|].
    rewrite (run_execute_resolved pool sql params st result Hreply) in Hv.
    destruct (command_tag result) as [e|cmd]; [discriminate Hv|].
    unfold is_read in Hv.
    destruct (Array_isArray (rows result)) eqn:Harr.
    + rewrite orb_true_r in Hv. injection Hv as <-. left. reflexivity.
    + rewrite orb_false_r in Hv. destruct (cmd =? "SELECT").
      * injection Hv as <-. left. reflexivity.
      * injection Hv as <-. right.
        exists (js_nullish (rowCount result) (JNum 0)).
        repeat split; destruct (rowCount result); discriminate.
  - rewrite (run_execute_failed pool sql params st e Hreply) in Hv.
    discriminate Hv.
Qed.

(** X5. A resolved result whose [command] is truthy and not a string
    makes [execute] reject with a [TypeError], after the one query has
    been made and has succeeded; with any other [command] (a string, or
    a falsy value) [execute] fulfils. *)
Theorem non_string_tag_rejects (result : PgResult) :
  reply = Resolved result ->
  ((exists msg, settled = Rejected (TypeError msg)) <->
   truthy (command result) = true /\ forall s, command result <> JStr s) /\
  ((exists v, settled = Fulfilled v) <->
   truthy (command result) = false \/ exists s, command result = JStr s) /\
  length (calls (run pool (execute sql params) st)) = 1.
Proof.
  intros Hreply.
  rewrite (run_execute_resolved pool sql params st result Hreply).
  rewrite run_execute_calls.
  unfold command_tag, js_or.
  split; [|split; [|reflexivity]].
  - split.
    + intros [msg H]. destruct (command result) as [| |b|n|s| |]; simpl in *.
      * discriminate H.
      * discriminate H.
      * destruct b; [split; [reflexivity | discriminate] | discriminate H].
      * destruct (n =? 0)%Z; [discriminate H|].
        split; [reflexivity | discriminate].
      * destruct (negb (s =? "")); simpl in H;
          destruct (is_read _ result); discriminate H.
      * split; [reflexivity | discriminate].
      * split; [reflexivity | discriminate].
    + intros [Ht Hs]. destruct (command result) as [| |b|n|s| |];
        simpl in *; try discriminate Ht.
      * rewrite Ht. eexists. reflexivity.
      * rewrite Ht. eexists. reflexivity.
      * exfalso. apply (Hs s). reflexivity.
      * eexists. reflexivity.
      * eexists. reflexivity.
  - split.
    + intros [v H]. destruct (command result) as [| |b|n|s| |]; simpl in *.
      * left. reflexivity.
      * left. reflexivity.
      * destruct b; [discriminate H | left; reflexivity].
      * destruct (n =? 0)%Z; [left; reflexivity | discriminate H].
      * right. exists s. reflexivity.
      * discriminate H.
      * discriminate H.
    + intros [Ht | [s Hs]].
      * rewrite Ht. simpl. destruct (is_read _ result); eexists; reflexivity.
      * rewrite Hs. simpl. destruct (negb (s =? "")); simpl;
          destruct (is_read _ result); eexists; reflexivity.
Qed.

End Outcomes.

(** X6. What [execute] returns is decided by the driver's reply alone:
    two calls, with different statements, parameters or pools, settle in
    the same way whenever the pool gave them the same reply.  The
    statement text plays no part in telling a read from a mutation. *)
Theorem outcome_depends_on_reply_only
    {S S' : Type} (pool : Pool S) (pool' : Pool S')
    (sql sql' : string) (params params' : JsVal) (st : S) (st' : S') :
  driver_reply pool sql params st = driver_reply pool' sql' params' st' ->
  settled pool sql params st = settled pool' sql' params' st'.
Proof.
  intros H. destruct (driver_reply pool' sql' params' st') as [result|e] eqn:H'.
  - rewrite (run_execute_resolved pool sql params st result H).
    rewrite (run_execute_resolved pool' sql' params' st' result H').
    reflexivity.
  - rewrite (run_execute_failed pool sql params st e H).
    rewrite (run_execute_failed pool' sql' params' st' e H').
    reflexivity.
Qed.

(* ================================================================== *)
(** * The port of the pool                                             *)
(* ================================================================== *)

Lemma env_get_cases (name : string) (env : Env) :
  env_get name env = JUndefined \/ exists v, env_get name env = JStr v.
Proof.
  induction env as [|[k v] rest IH]; simpl; [left; reflexivity|].
  destruct (k =? name); [right; exists v; reflexivity | exact IH].
Qed.

(** X7. The pool is always given a port.  It is the number [5432]
    exactly when [DB_PORT] is not set or is set to the empty string; any
    other [DB_PORT] is handed over as the string it is. *)
Theorem pool_port_default (env : Env) :
  truthy (port (pool_config env)) = true /\
  (port (pool_config env) = JNum 5432 <->
   env_get "DB_PORT" env = JUndefined \/
   env_get "DB_PORT" env = JStr EmptyString) /\
  (forall v, env_get "DB_PORT" env = JStr v -> v <> EmptyString ->
     port (pool_config env) = JStr v).
Proof.
  unfold pool_config; cbn [port]. unfold js_or.
  destruct (env_get_cases "DB_PORT" env) as [-> | [v ->]].
  - simpl. repeat split.
    + intros _. left. reflexivity.
    + intros v H. discriminate H.
  - destruct v as [|c v].
    + simpl. repeat split.
      * intros _. right. reflexivity.
      * intros v Hv Hne. injection Hv as <-. congruence.
    + simpl. repeat split.
      * intros H. discriminate H.
      * intros [H | H]; discriminate H.
      * intros w Hw _. exact Hw.
Qed.

(* ================================================================== *)
(** * The further properties on concrete runs                          *)
(* ================================================================== *)

(** A delete that reports two rows and no row array. *)
Lemma fulfilled_shapes_witness :
  exists result,
    driver_reply scripted_pool "DELETE FROM borrows WHERE id = ?"
      (JArr [JNum 8])
      [Resolved {| command := JStr "DELETE"; rows := JNull;
                   rowCount := JNum 2 |}]
    = Resolved result /\
    (JArr [JObj [("affectedRows", JNum 2); ("insertId", JNull)]]
     = JArr [rows result; JUndefined] \/
     exists affected,
       JArr [JObj [("affectedRows", JNum 2); ("insertId", JNull)]]
       = JArr [JObj [("affectedRows", affected); ("insertId", JNull)]] /\
       Array_isArray (rows result) = false /\
       affected <> JUndefined /\ affected <> JNull).
Proof.
  apply (fulfilled_shapes scripted_pool "DELETE FROM borrows WHERE id = ?"
           (JArr [JNum 8])
           [Resolved {| command := JStr "DELETE"; rows := JNull;
                        rowCount := JNum 2 |}]).
  reflexivity.
Defined.

(** A result whose [command] is the number 7. *)
Lemma non_string_tag_rejects_witness :
  (exists msg,
     settled scripted_pool "SELECT 1" (JArr [])
       [Resolved {| command := JNum 7; rows := JArr []; rowCount := JNum 0 |}]
     = Rejected (TypeError msg)) /\
  length (calls (run scripted_pool (execute "SELECT 1" (JArr []))
                   [Resolved {| command := JNum 7; rows := JArr [];
                                rowCount := JNum 0 |}])) = 1.
Proof.
  destruct (non_string_tag_rejects scripted_pool "SELECT 1" (JArr [])
              [Resolved {| command := JNum 7; rows := JArr [];
                           rowCount := JNum 0 |}]
              {| command := JNum 7; rows := JArr []; rowCount := JNum 0 |})
    as (Hreject & _ & Hcalls).
  - reflexivity.
  - split; [|exact Hcalls]. apply Hreject.
    split; [reflexivity | discriminate].
Defined.

(** The same reply to a delete and to a select. *)
Lemma outcome_depends_on_reply_only_witness :
  settled scripted_pool "DELETE FROM books WHERE id = ?" (JArr [JNum 1])
    [Resolved {| command := JStr "DELETE"; rows := JArr []; rowCount := JNum 1 |}]
  = settled scripted_pool "SELECT * FROM books" JUndefined
      [Resolved {| command := JStr "DELETE"; rows := JArr [];
                   rowCount := JNum 1 |};
       Failed JNull].
Proof.
  apply (outcome_depends_on_reply_only scripted_pool scripted_pool).
  reflexivity.
Defined.
